(** * getting_started.py: the request runner

    A shallow embedding of [anthropic_api_fundamentals/getting_started.py].
    The script is one straight line of calls: load the [.env] file, read
    the credential from the process environment, build a client, issue
    one [messages.create] call, take [response.content[0]] and print its
    text when it is a [TextBlock].

    Python's process state (the environment mapping and the effects the
    process has had on the outside) is threaded through a small state and
    exception monad [Py]; everything the outside supplies (the initial
    environment, the [.env] file, the remote service) is a [Host], and
    the text stream behind standard output is a [Stream]. *)

From Stdlib Require Import Ascii.
From stdpp Require Import base strings list gmap.

Local Open Scope Z_scope.

(** ** Data *)

(** One entry of the [messages] argument: the dict
    [{"role": ..., "content": ...}] of lines 21-24. *)
Record MessageParam := {
  role : string;
  msg_content : string;
}.

(** The keyword arguments of [client.messages.create] (lines 17-26). *)
Record Request := {
  model : string;
  max_tokens : Z;
  messages : list MessageParam;
}.

(** Modelled from the spec: the content segment type is declared in the
    client library ([anthropic.types]), not in this repository. The spec
    describes it as a tagged variant over at least a text segment and
    other segment kinds (tool-use, other); [isinstance(b, TextBlock)]
    holds exactly for the first constructor. *)
Inductive ContentBlock :=
  | TextBlock (text : string)
  | ToolUseBlock (id name input : string)
  | OtherBlock (kind payload : string).

(** Modelled from the spec: the response type is declared in the client
    library; the script reads only its ordered sequence of content
    segments. *)
Record Response := {
  content : list ContentBlock;
}.

(** Exceptions that can travel through the script. [IndexError] and
    [UnicodeEncodeError] are Python's own; the others are the client
    library's failure classes. *)
Inductive exn :=
  | IndexError
  | UnicodeEncodeError
  | AuthenticationError
  | APIConnectionError
  | RateLimitError
  | APIStatusError (status : Z).

(** Modelled from the spec: the client object of the library, bound to
    the credential it was constructed with. *)
Record Client := {
  api_key : option string;
}.

(** Effects a process can have on the outside. [ApiCall c r] is the
    outbound call: request [r] handed to client [c] for sending, the only
    way the script reaches the network. [FileWrite] and [LogWrite] are
    what persistence and logging would look like. *)
Inductive Effect :=
  | ApiCall (c : Client) (r : Request)
  | StdoutWrite (s : string)
  | FileWrite (path data : string)
  | LogWrite (s : string).

(** What the outside supplies to one run. [host_dotenv] is [None] when no
    [.env] file is found, and otherwise the file's bindings in file order
    (a key without a value is bound to [None]). [host_service] is the
    answer of the remote service to a request sent with a credential. *)
Record Host := {
  host_environ : gmap string string;
  host_dotenv : option (list (string * option string));
  host_service : string → Request → exn + Response;
}.

(** The text stream standard output is bound to. Its encoding and its
    error handler decide which texts it takes: [can_encode s] is [false]
    when writing [s] to it raises [UnicodeEncodeError] (a lone surrogate
    on a UTF-8 stream, a non-ASCII character on an ASCII one). *)
Record Stream := {
  can_encode : string → bool;
}.

(** ** The interpreter state and the [Py] monad *)

Record Proc := {
  os_environ : gmap string string;
  effects : list Effect;
}.

Definition Py (A : Type) : Type := Proc → (exn + A) * Proc.

#[export] Instance Py_ret : MRet Py := λ A x st, (inr x, st).

#[export] Instance Py_bind : MBind Py := λ A B f m st,
  match m st with
  | (inl e, st') => (inl e, st')
  | (inr a, st') => f a st'
  end.

Definition raise {A} (e : exn) : Py A := λ st, (inl e, st).

Definition perform (e : Effect) : Py unit := λ st,
  (inr (), {| os_environ := os_environ st; effects := effects st ++ [e] |}).

Definition read_environ : Py (gmap string string) := λ st,
  (inr (os_environ st), st).

Definition write_environ (k v : string) : Py unit := λ st,
  (inr (), {| os_environ := <[k:=v]> (os_environ st); effects := effects st |}).

(** ** Python primitives *)

Definition newline : string := String "010"%char EmptyString.

(** [print(s)] with [sys.stdout] bound to [out]. The stream encodes [s]
    as a whole before any of it is passed on, so the call either writes
    [s] followed by the line terminator, or raises [UnicodeEncodeError]
    and writes nothing. *)
Definition print (out : Stream) (s : string) : Py unit :=
  if can_encode out s then perform (StdoutWrite (s +:+ newline))
  else raise UnicodeEncodeError.

(** [l[i]] for a non-negative literal index: [IndexError] out of range. *)
Definition getitem {A} (l : list A) (i : nat) : Py A :=
  match l !! i with
  | Some x => mret x
  | None => raise IndexError
  end.

(** [os.getenv(k)]: the value, or [None] when the variable is unset. *)
Definition getenv (k : string) : Py (option string) :=
  env ← read_environ; mret (env !! k).

(** ** python-dotenv *)

(** A Python dict kept as its items in insertion order: assigning to a
    key that is present replaces the value in place. *)
Fixpoint dict_set {V} (k : string) (v : V) (d : list (string * V)) : list (string * V) :=
  match d with
  | [] => [(k, v)]
  | (k', v') :: d' =>
      if decide (k = k') then (k, v) :: d' else (k', v') :: dict_set k v d'
  end.

Fixpoint dict_get {V} (d : list (string * V)) (k : string) : option V :=
  match d with
  | [] => None
  | (k', v') :: d' => if decide (k = k') then Some v' else dict_get d' k
  end.

Definition dict_of {V} (bindings : list (string * V)) : list (string * V) :=
  foldl (λ d kv, dict_set kv.1 kv.2 d) [] bindings.

(** Modelled from the spec: [load_dotenv] comes from the python-dotenv
    package, not from this repository; it loads the key-value pairs of
    the [.env] file into the process environment. One iteration of its
    loop over the file's dict: a key already in the environment is
    skipped unless [override] is set, and a key without a value is never
    exported. *)
Definition export_binding (override : bool) (kv : string * option string) : Py unit :=
  env ← read_environ;
  if bool_decide (is_Some (env !! kv.1)) && negb override then mret ()
  else match kv.2 with
       | Some v => write_environ kv.1 v
       | None => mret ()
       end.

Fixpoint export_bindings (override : bool) (d : list (string * option string)) : Py unit :=
  match d with
  | [] => mret ()
  | kv :: d' => export_binding override kv;; export_bindings override d'
  end.

(** Modelled from the spec: [load_dotenv(override=False)] as the script
    calls it, with no file found ([False]), an empty file ([False]) or a
    file whose bindings are exported ([True]). *)
Definition load_dotenv (h : Host) (override : bool) : Py bool :=
  match host_dotenv h with
  | None => mret false
  | Some bindings =>
      match dict_of bindings with
      | [] => mret false
      | d => export_bindings override d;; mret true
      end
  end.

(** ** The client library *)

(** Modelled from the spec: the constructor of the client binds the
    credential and validates nothing. *)
Definition Anthropic (key : option string) : Py Client :=
  mret {| api_key := key |}.

(** Modelled from the spec: [client.messages.create]. The call is the
    one outbound effect; a missing or empty credential surfaces here as
    an authentication failure, and any failure of the service is raised
    to the caller. *)
Definition messages_create (h : Host) (c : Client) (r : Request) : Py Response :=
  perform (ApiCall c r);;
  match api_key c with
  | None => raise AuthenticationError
  | Some k =>
      if decide (k = "") then raise AuthenticationError
      else match host_service h k r with
           | inl e => raise e
           | inr resp => mret resp
           end
  end.

(** ** The script *)

Definition KEY : string := "ANTHROPIC_API_KEY".

Definition the_request : Request := {|
  model := "claude-haiku-4-5-20251001";
  max_tokens := 8000;
  messages :=
    [ {| role := "user";
         msg_content := "What should I search for to find the latest developments in C++?" |} ];
|}.

(** [isinstance(b, TextBlock)]. *)
Definition isinstance_TextBlock (b : ContentBlock) : bool :=
  match b with
  | TextBlock _ => true
  | _ => false
  end.

(** The module body, line by line. The [match] is the [isinstance] test
    of line 31 together with the field access it guards. *)
Definition main (out : Stream) (h : Host) : Py unit :=
  load_dotenv h false;;
  my_api_key ← getenv KEY;
  client ← Anthropic my_api_key;
  response ← messages_create h client the_request;
  content_block ← getitem (content response) 0;
  match content_block with
  | TextBlock text => print out text
  | _ => mret ()
  end.

(** *** The script cut at lines 11, 14, 26 and 30 *)

Definition read_key (h : Host) : Py (option string) :=
  load_dotenv h false;;
  getenv KEY.

Definition startup (h : Host) : Py Client :=
  load_dotenv h false;;
  my_api_key ← getenv KEY;
  Anthropic my_api_key.

Definition exchange (h : Host) : Py Response :=
  load_dotenv h false;;
  my_api_key ← getenv KEY;
  client ← Anthropic my_api_key;
  messages_create h client the_request.

Definition show (out : Stream) (response : Response) : Py unit :=
  content_block ← getitem (content response) 0;
  match content_block with
  | TextBlock text => print out text
  | _ => mret ()
  end.

(** ** The process boundary *)

Definition boot (h : Host) : Proc :=
  {| os_environ := host_environ h; effects := [] |}.

(** Running the script in a fresh interpreter whose standard output is
    the stream [out]. *)
Definition python (out : Stream) (h : Host) : (exn + unit) * Proc :=
  main out h (boot h).

(** An exception that reaches the top level ends the process with
    status 1; falling off the end of the script ends it with 0. *)
Definition exit_status {A} (r : exn + A) : Z :=
  match r with
  | inl _ => 1
  | inr _ => 0
  end.

Definition stdout_of (e : Effect) : string :=
  match e with
  | StdoutWrite s => s
  | _ => ""
  end.

(** Everything written to standard output, in order. *)
Definition stdout (st : Proc) : string :=
  foldr (λ e acc, stdout_of e +:+ acc) "" (effects st).

Definition is_call (e : Effect) : bool :=
  match e with
  | ApiCall _ _ => true
  | _ => false
  end.

Definition is_stdout (e : Effect) : bool :=
  match e with
  | StdoutWrite _ => true
  | _ => false
  end.

Definition count_if (p : Effect → bool) (es : list Effect) : nat :=
  length (List.filter p es).

(** What the script holds in [my_api_key], [client] and [response] on a
    given host. *)
Definition my_api_key_of (h : Host) : exn + option string := (read_key h (boot h)).1.

Definition client_of (h : Host) : exn + Client := (startup h (boot h)).1.

Definition received (h : Host) : exn + Response := (exchange h (boot h)).1.

(** The stages of a run at which an exception can be raised. *)
Inductive stage_failure (h : Host) : exn → Prop :=
  | fails_before_response e :
      received h = inl e → stage_failure h e
  | fails_in_extraction r :
      received h = inr r → content r = [] → stage_failure h IndexError.

(** [needle] occurs somewhere inside [hay]. *)
Definition occurs_in (needle hay : string) : Prop :=
  ∃ before after, hay = before +:+ needle +:+ after.

(** The state in which a response is shown: the environment after the
    start-up and the single call in the effect log. *)
Definition after_call (env : gmap string string) (c : Client) : Proc :=
  {| os_environ := env; effects := [ApiCall c the_request] |}.

(** ** Streams and hosts used as concrete inputs *)

Fixpoint all_ascii (s : string) : bool :=
  match s with
  | EmptyString => true
  | String a s' => (nat_of_ascii a <? 128)%nat && all_ascii s'
  end.

(** Standard output with the ASCII encoding and the strict error
    handler. *)
Definition ascii_stream : Stream := {| can_encode := all_ascii |}.

(** A text with one character outside ASCII (code 233). *)
Definition accented : string := "caf" +:+ String "233"%char EmptyString.

Definition reply (blocks : list ContentBlock) : string → Request → exn + Response :=
  λ _ _, inr {| content := blocks |}.

Definition refuse (e : exn) : string → Request → exn + Response :=
  λ _ _, inl e.

(** The credential is in the process environment, there is no [.env]. *)
Definition host_with (key : string) (blocks : list ContentBlock) : Host := {|
  host_environ := {[ KEY := key ]};
  host_dotenv := None;
  host_service := reply blocks;
|}.

(** The credential is nowhere. *)
Definition host_unset : Host := {|
  host_environ := ∅;
  host_dotenv := None;
  host_service := reply [TextBlock "unreachable"];
|}.

(** The service throttles the request. *)
Definition host_throttled : Host := {|
  host_environ := {[ KEY := "sk-live" ]};
  host_dotenv := None;
  host_service := refuse RateLimitError;
|}.

(** The credential is only in the [.env] file, bound twice. *)
Definition host_dotenv_only : Host := {|
  host_environ := {[ "HOME" := "/root" ]};
  host_dotenv := Some [ (KEY, Some "sk-old"); ("DEBUG", None); (KEY, Some "sk-file") ];
  host_service := reply [TextBlock "hello"];
|}.

(** The credential is in both places. *)
Definition host_both : Host := {|
  host_environ := {[ KEY := "sk-env" ]};
  host_dotenv := Some [ (KEY, Some "sk-file") ];
  host_service := reply [TextBlock "hello"];
|}.

(** ** Running the monad *)

Lemma run_bind {A B} (m : Py A) (f : A → Py B) st :
  (m ≫= f) st =
  match m st with
  | (inl e, st') => (inl e, st')
  | (inr a, st') => f a st'
  end.
Proof. reflexivity. Qed.

Lemma append_nil_r (s : string) : s +:+ "" = s.
Proof.
  induction s as [|a s IH]; [done |].
  change (String a (s +:+ "") = String a s). by rewrite IH.
Qed.

Lemma append_empty (a b : string) : a +:+ b = "" → b = "".
Proof. destruct a; [done | discriminate]. Qed.

Lemma occurs_in_empty k : occurs_in k "" → k = "".
Proof.
  intros (a & b & H). symmetry in H.
  apply append_empty in H. destruct k; [done | discriminate].
Qed.

(** *** The script and its cuts *)

Lemma main_cut out h st : main out h st = (exchange h ≫= show out) st.
Proof.
  unfold main, exchange, show. rewrite !run_bind.
  destruct (load_dotenv h false st) as [[e|b] st1]; [done |].
  rewrite !run_bind. simpl.
  by destruct (messages_create h {| api_key := os_environ st1 !! KEY |}
                 the_request st1) as [[e|r] st2].
Qed.

Lemma exchange_cut h st :
  exchange h st = (startup h ≫= λ c, messages_create h c the_request) st.
Proof.
  unfold exchange, startup. rewrite !run_bind.
  by destruct (load_dotenv h false st) as [[e|b] st1].
Qed.

Lemma startup_cut h st : startup h st = (read_key h ≫= Anthropic) st.
Proof.
  unfold startup, read_key. rewrite !run_bind.
  by destruct (load_dotenv h false st) as [[e|b] st1].
Qed.

(** *** Nothing before the call fails or has an outward effect *)

Lemma export_binding_quiet override kv st :
  ∃ env, export_binding override kv st =
         (inr (), {| os_environ := env; effects := effects st |}).
Proof.
  unfold export_binding. rewrite run_bind. unfold read_environ.
  destruct st as [env es]; simpl.
  destruct (bool_decide _ && negb override); [by eexists |].
  destruct kv.2; by eexists.
Qed.

Lemma export_bindings_quiet override d st :
  ∃ env, export_bindings override d st =
         (inr (), {| os_environ := env; effects := effects st |}).
Proof.
  revert st. induction d as [|kv d IH]; intros st; simpl.
  - destruct st; by eexists.
  - rewrite run_bind.
    destruct (export_binding_quiet override kv st) as [env ->].
    destruct (IH {| os_environ := env; effects := effects st |}) as [env' ->].
    by eexists.
Qed.

Lemma load_dotenv_quiet h override st :
  ∃ b env, load_dotenv h override st =
           (inr b, {| os_environ := env; effects := effects st |}).
Proof.
  unfold load_dotenv. destruct (host_dotenv h) as [bindings|].
  - destruct (dict_of bindings) as [|kv d] eqn:E.
    + destruct st; by do 2 eexists.
    + rewrite run_bind.
      destruct (export_bindings_quiet override (kv :: d) st) as [env ->].
      by do 2 eexists.
  - destruct st; by do 2 eexists.
Qed.

Lemma read_key_run h :
  ∃ env, read_key h (boot h) =
         (inr (env !! KEY), {| os_environ := env; effects := [] |}).
Proof.
  unfold read_key. rewrite run_bind.
  destruct (load_dotenv_quiet h false (boot h)) as (b & env & ->).
  by exists env.
Qed.

Lemma startup_run h :
  ∃ k env, my_api_key_of h = inr k ∧
           startup h (boot h) =
           (inr {| api_key := k |}, {| os_environ := env; effects := [] |}).
Proof.
  destruct (read_key_run h) as (env & Hk).
  exists (env !! KEY), env. split.
  - unfold my_api_key_of. by rewrite Hk.
  - by rewrite startup_cut, run_bind, Hk.
Qed.

(** *** One call, then the response is shown *)

Lemma messages_create_effect h c r st :
  ∃ res, messages_create h c r st =
         (res, {| os_environ := os_environ st;
                  effects := effects st ++ [ApiCall c r] |}).
Proof.
  unfold messages_create. rewrite run_bind. simpl.
  destruct (api_key c) as [k|]; [|by eexists].
  destruct (decide (k = "")); [by eexists |].
  destruct (host_service h k r); by eexists.
Qed.

Lemma exchange_run h :
  ∃ k env, my_api_key_of h = inr k ∧
           client_of h = inr {| api_key := k |} ∧
           exchange h (boot h) = (received h, after_call env {| api_key := k |}).
Proof.
  destruct (startup_run h) as (k & env & Hk & Hs).
  exists k, env. split; [done |]. split; [by unfold client_of; rewrite Hs |].
  unfold received. rewrite exchange_cut, run_bind, Hs.
  destruct (messages_create_effect h {| api_key := k |} the_request
              {| os_environ := env; effects := [] |}) as [res ->].
  done.
Qed.

Lemma python_run out h :
  ∃ k env, my_api_key_of h = inr k ∧
           client_of h = inr {| api_key := k |} ∧
           python out h =
           match received h with
           | inl e => (inl e, after_call env {| api_key := k |})
           | inr r => show out r (after_call env {| api_key := k |})
           end.
Proof.
  destruct (exchange_run h) as (k & env & Hk & Hc & Hx).
  exists k, env. do 2 (split; [done |]).
  unfold python. rewrite main_cut, run_bind, Hx.
  by destruct (received h).
Qed.

Lemma show_text out r t st :
  content r !! 0%nat = Some (TextBlock t) →
  can_encode out t = true →
  show out r st =
  (inr (), {| os_environ := os_environ st;
              effects := effects st ++ [StdoutWrite (t +:+ newline)] |}).
Proof.
  intros H He. unfold show, getitem. rewrite H, run_bind.
  cbn [mret Py_ret]. unfold print. by rewrite He.
Qed.

Lemma show_unencodable out r t st :
  content r !! 0%nat = Some (TextBlock t) →
  can_encode out t = false →
  show out r st = (inl UnicodeEncodeError, st).
Proof.
  intros H He. unfold show, getitem. rewrite H, run_bind.
  cbn [mret Py_ret]. unfold print. by rewrite He.
Qed.

Lemma show_other out r b st :
  content r !! 0%nat = Some b → isinstance_TextBlock b = false →
  show out r st = (inr (), st).
Proof. intros H Hb. unfold show, getitem. rewrite H. by destruct b. Qed.

Lemma show_empty out r st :
  content r = [] → show out r st = (inl IndexError, st).
Proof. intros H. unfold show, getitem. by rewrite H. Qed.

Lemma show_head out r1 r2 st :
  content r1 !! 0%nat = content r2 !! 0%nat → show out r1 st = show out r2 st.
Proof. intros H. unfold show, getitem. by rewrite H. Qed.

Lemma stdout_after_print env c s :
  stdout {| os_environ := env;
            effects := [ApiCall c the_request; StdoutWrite s] |} = s.
Proof. unfold stdout; simpl. apply append_nil_r. Qed.

(** The four ways a shown response can end. *)
Lemma show_cases out r env c :
  (content r = [] ∧
   show out r (after_call env c) = (inl IndexError, after_call env c)) ∨
  (∃ b, content r !! 0%nat = Some b ∧ isinstance_TextBlock b = false ∧
        show out r (after_call env c) = (inr (), after_call env c)) ∨
  (∃ t, content r !! 0%nat = Some (TextBlock t) ∧ can_encode out t = false ∧
        show out r (after_call env c) =
        (inl UnicodeEncodeError, after_call env c)) ∨
  (∃ t, content r !! 0%nat = Some (TextBlock t) ∧ can_encode out t = true ∧
        show out r (after_call env c) =
        (inr (), {| os_environ := env;
                    effects := [ApiCall c the_request;
                                StdoutWrite (t +:+ newline)] |})).
Proof.
  destruct (content r) as [|b bs] eqn:E.
  - left. split; [done |]. by apply show_empty.
  - right. destruct (isinstance_TextBlock b) eqn:Hb.
    + right. destruct b as [t| |]; try discriminate.
      assert (Ht : content r !! 0%nat = Some (TextBlock t)) by by rewrite E.
      destruct (can_encode out t) eqn:He.
      * right. exists t. do 2 (split; [done |]).
        by rewrite (show_text out r t (after_call env c) Ht He).
      * left. exists t. do 2 (split; [done |]).
        by apply (show_unencodable out r t).
    + left. exists b. split; [done |]. split; [done |].
      apply (show_other out r b); [by rewrite E | done].
Qed.

(** What a shown response lets an observer see does not depend on the
    environment or on the client the call was made with. *)
Lemma show_observed out r env1 c1 env2 c2 :
  (show out r (after_call env1 c1)).1 = (show out r (after_call env2 c2)).1 ∧
  stdout (show out r (after_call env1 c1)).2 =
  stdout (show out r (after_call env2 c2)).2.
Proof.
  unfold show, getitem.
  destruct (content r !! 0%nat) as [[t| |]|]; rewrite !run_bind;
    cbn [mret Py_ret]; try done.
  unfold print. by destruct (can_encode out t).
Qed.

(** ** The printed text *)

(** C1, as the code has it: when the first content segment of the
    response is a text segment that standard output can encode, standard
    output holds exactly that segment's text followed by one line
    terminator; the effect log holds the call and this single write,
    nothing else. *)
Theorem text_segment_printed_with_newline out h r t :
  received h = inr r →
  content r !! 0%nat = Some (TextBlock t) →
  can_encode out t = true →
  stdout (python out h).2 = t +:+ newline ∧
  ∃ c, effects (python out h).2 =
       [ApiCall c the_request; StdoutWrite (t +:+ newline)].
Proof.
  intros Hr Ht He.
  destruct (python_run out h) as (k & env & _ & _ & Hp).
  rewrite Hr, (show_text out r t _ Ht He) in Hp. rewrite Hp. simpl.
  split; [apply stdout_after_print | by eexists].
Qed.

Lemma text_segment_printed_with_newline_witness :
  stdout (python ascii_stream (host_with "sk" [TextBlock "ask"])).2 =
  "ask" +:+ newline ∧
  ∃ c, effects (python ascii_stream (host_with "sk" [TextBlock "ask"])).2 =
       [ApiCall c the_request; StdoutWrite ("ask" +:+ newline)].
Proof.
  apply (text_segment_printed_with_newline ascii_stream
           (host_with "sk" [TextBlock "ask"]) {| content := [TextBlock "ask"] |} "ask");
    vm_compute; reflexivity.
Defined.

(** C1 as stated fails twice over. The response's first segment is the
    text [ask], and standard output is not [ask]: it is [ask] and a line
    terminator. And the first segment is a text the ASCII stream cannot
    encode, and standard output is not that text: it is empty, the run
    having ended with [UnicodeEncodeError]. *)
Lemma printed_text_is_not_verbatim :
  (received (host_with "sk" [TextBlock "ask"]) =
     inr {| content := [TextBlock "ask"] |} ∧
   content {| content := [TextBlock "ask"] |} !! 0%nat = Some (TextBlock "ask") ∧
   stdout (python ascii_stream (host_with "sk" [TextBlock "ask"])).2 ≠ "ask") ∧
  (received (host_with "sk" [TextBlock accented]) =
     inr {| content := [TextBlock accented] |} ∧
   content {| content := [TextBlock accented] |} !! 0%nat =
     Some (TextBlock accented) ∧
   (python ascii_stream (host_with "sk" [TextBlock accented])).1 =
     inl UnicodeEncodeError ∧
   stdout (python ascii_stream (host_with "sk" [TextBlock accented])).2 ≠
     accented).
Proof.
  split.
  - split; [vm_compute; reflexivity |]. split; [reflexivity |]. by vm_compute.
  - split; [vm_compute; reflexivity |]. split; [reflexivity |].
    split; [vm_compute; reflexivity |]. by vm_compute.
Qed.

(** C2: when the content sequence is non-empty and its first segment is
    not a text segment, nothing is written to standard output and the run
    ends normally, with exit status 0. *)
Theorem non_text_segment_is_silent out h r b :
  received h = inr r →
  content r !! 0%nat = Some b →
  isinstance_TextBlock b = false →
  stdout (python out h).2 = "" ∧
  (python out h).1 = inr () ∧
  exit_status (python out h).1 = 0.
Proof.
  intros Hr Hb Hn.
  destruct (python_run out h) as (k & env & _ & _ & Hp).
  rewrite Hr, (show_other out r b _ Hb Hn) in Hp. by rewrite Hp.
Qed.

Lemma non_text_segment_is_silent_witness :
  stdout (python ascii_stream
            (host_with "sk" [ToolUseBlock "tu_1" "search" "{}"; TextBlock "late"])).2 = "" ∧
  (python ascii_stream
     (host_with "sk" [ToolUseBlock "tu_1" "search" "{}"; TextBlock "late"])).1 = inr () ∧
  exit_status
    (python ascii_stream
       (host_with "sk" [ToolUseBlock "tu_1" "search" "{}"; TextBlock "late"])).1 = 0.
Proof.
  apply (non_text_segment_is_silent ascii_stream
           (host_with "sk" [ToolUseBlock "tu_1" "search" "{}"; TextBlock "late"])
           {| content := [ToolUseBlock "tu_1" "search" "{}"; TextBlock "late"] |}
           (ToolUseBlock "tu_1" "search" "{}"));
    vm_compute; reflexivity.
Defined.

(** C3: when the content sequence of the response is empty, reading its
    first element raises [IndexError], the run ends with that exception,
    and nothing is written to standard output. *)
Theorem empty_content_raises_IndexError out h r :
  received h = inr r →
  content r = [] →
  (∀ st, getitem (content r) 0 st = (inl IndexError, st)) ∧
  (python out h).1 = inl IndexError ∧
  stdout (python out h).2 = "".
Proof.
  intros Hr He. split; [by intros st; rewrite He |].
  destruct (python_run out h) as (k & env & _ & _ & Hp).
  rewrite Hr, (show_empty out r _ He) in Hp. by rewrite Hp.
Qed.

Lemma empty_content_raises_IndexError_witness :
  (python ascii_stream (host_with "sk" [])).1 = inl IndexError ∧
  stdout (python ascii_stream (host_with "sk" [])).2 = "".
Proof.
  apply (empty_content_raises_IndexError ascii_stream
           (host_with "sk" []) {| content := [] |});
    vm_compute; reflexivity.
Defined.

(** C8: only the first segment is consumed. Two runs whose responses
    agree on the first element of the content sequence write the same
    standard output (and end the same way), whatever follows it. *)
Theorem only_first_segment_consumed out h1 h2 r1 r2 :
  received h1 = inr r1 →
  received h2 = inr r2 →
  content r1 !! 0%nat = content r2 !! 0%nat →
  stdout (python out h1).2 = stdout (python out h2).2 ∧
  (python out h1).1 = (python out h2).1.
Proof.
  intros H1 H2 Hh.
  destruct (python_run out h1) as (k1 & env1 & _ & _ & Hp1).
  destruct (python_run out h2) as (k2 & env2 & _ & _ & Hp2).
  rewrite H1 in Hp1. rewrite H2 in Hp2. rewrite Hp1, Hp2.
  rewrite (show_head out r1 r2 _ Hh).
  destruct (show_observed out r2 env1 {| api_key := k1 |} env2 {| api_key := k2 |})
    as [-> ->].
  done.
Qed.

Lemma only_first_segment_consumed_witness :
  stdout (python ascii_stream
            (host_with "sk" [TextBlock "ask"; ToolUseBlock "tu_1" "search" "{}"])).2 =
  stdout (python ascii_stream (host_with "pk" [TextBlock "ask"])).2 ∧
  (python ascii_stream
     (host_with "sk" [TextBlock "ask"; ToolUseBlock "tu_1" "search" "{}"])).1 =
  (python ascii_stream (host_with "pk" [TextBlock "ask"])).1.
Proof.
  apply (only_first_segment_consumed ascii_stream
           (host_with "sk" [TextBlock "ask"; ToolUseBlock "tu_1" "search" "{}"])
           (host_with "pk" [TextBlock "ask"])
           {| content := [TextBlock "ask"; ToolUseBlock "tu_1" "search" "{}"] |}
           {| content := [TextBlock "ask"] |});
    vm_compute; reflexivity.
Defined.

(** ** Failures and effects *)

(** C5: nothing is caught. An exception raised at any stage (the
    credential, the transport, the service, the shape of the response) is
    the exception the run ends with; the exit status is not zero and
    nothing has been written to standard output. *)
Theorem failures_propagate out h e :
  stage_failure h e →
  (python out h).1 = inl e ∧
  exit_status (python out h).1 ≠ 0 ∧
  stdout (python out h).2 = "".
Proof.
  intros Hf.
  destruct (python_run out h) as (k & env & _ & _ & Hp).
  destruct Hf as [e Hr|r Hr He].
  - rewrite Hr in Hp. by rewrite Hp.
  - rewrite Hr, (show_empty out r _ He) in Hp. by rewrite Hp.
Qed.

Lemma failures_propagate_witness :
  stage_failure host_throttled RateLimitError ∧
  (python ascii_stream host_throttled).1 = inl RateLimitError ∧
  exit_status (python ascii_stream host_throttled).1 ≠ 0 ∧
  stdout (python ascii_stream host_throttled).2 = "".
Proof.
  assert (Hf : stage_failure host_throttled RateLimitError)
    by (apply fails_before_response; vm_compute; reflexivity).
  split; [exact Hf |].
  exact (failures_propagate ascii_stream host_throttled RateLimitError Hf).
Defined.

(** The effect log of a run: the call, then at most one write. *)
Lemma effects_shape out h :
  ∃ c, effects (python out h).2 = [ApiCall c the_request] ∨
       ∃ s, effects (python out h).2 = [ApiCall c the_request; StdoutWrite s].
Proof.
  destruct (python_run out h) as (k & env & _ & _ & Hp). rewrite Hp.
  exists {| api_key := k |}. destruct (received h) as [e|r]; [by left |].
  destruct (show_cases out r env {| api_key := k |})
    as [[_ ->]|[(b & _ & _ & ->)|[(t & _ & _ & ->)|(t & _ & _ & ->)]]];
    [by left | by left | by left | right; by eexists].
Qed.

Lemma sent_request out h c req :
  ApiCall c req ∈ effects (python out h).2 → req = the_request.
Proof.
  intros Hin. destruct (effects_shape out h) as [c' [Hs|[s Hs]]];
    rewrite Hs in Hin.
  - apply list_elem_of_singleton in Hin. by injection Hin.
  - apply elem_of_cons in Hin as [Hin|Hin]; [by injection Hin |].
    by apply list_elem_of_singleton in Hin.
Qed.

(** C6: every request the script sends carries a message list with
    exactly one entry, whose role is ["user"]; so the list is non-empty
    and begins with a user message on every run. *)
Theorem request_has_one_user_message out h c req :
  ApiCall c req ∈ effects (python out h).2 →
  messages req ≠ [] ∧
  ∃ m, messages req = [m] ∧ role m = "user".
Proof.
  intros Hin. apply sent_request in Hin as ->.
  split; [done |]. by eexists.
Qed.

Lemma request_has_one_user_message_witness :
  messages the_request ≠ [] ∧
  ∃ m, messages the_request = [m] ∧ role m = "user".
Proof.
  apply (request_has_one_user_message ascii_stream
           (host_with "sk" [TextBlock "ask"]) {| api_key := Some "sk" |} the_request).
  vm_compute. apply list_elem_of_here.
Defined.

(** C7: the effects of a run are bounded. The effect log is the one
    call to the service, followed by at most one write to standard
    output; so there is exactly one network call, at most one write, and
    no entry of any other kind (no file written, nothing logged). *)
Theorem effects_are_bounded out h :
  (∃ c, effects (python out h).2 = [ApiCall c the_request] ∨
        ∃ s, effects (python out h).2 = [ApiCall c the_request; StdoutWrite s]) ∧
  count_if is_call (effects (python out h).2) = 1%nat ∧
  (count_if is_stdout (effects (python out h).2) ≤ 1)%nat ∧
  Forall (λ e, is_call e || is_stdout e = true) (effects (python out h).2).
Proof.
  pose proof (effects_shape out h) as Hshape. split; [exact Hshape |].
  destruct Hshape as [c [->|[s ->]]]; unfold count_if; simpl;
    repeat split; try lia; by repeat constructor.
Qed.

(** ** The credential *)

Section Dict.
Context {V : Type}.
Implicit Types (d : list (string * V)) (k : string) (v : V).

Lemma dict_set_keys x k v d : x ∈ (dict_set k v d).*1 ↔ x = k ∨ x ∈ d.*1.
Proof.
  induction d as [|[k' v'] d IH]; simpl.
  - rewrite list_elem_of_singleton, elem_of_nil. tauto.
  - destruct (decide (k = k')) as [->|Hne]; simpl.
    + rewrite !elem_of_cons. tauto.
    + rewrite !elem_of_cons, IH. tauto.
Qed.

Lemma dict_set_NoDup k v d : NoDup d.*1 → NoDup (dict_set k v d).*1.
Proof.
  induction d as [|[k' v'] d IH]; simpl; intros Hd.
  - apply NoDup_singleton.
  - apply NoDup_cons in Hd as [Hk' Hd].
    destruct (decide (k = k')) as [->|Hne]; simpl.
    + by apply NoDup_cons.
    + apply NoDup_cons. split; [|by apply IH].
      rewrite dict_set_keys. intros [->|Hin]; done.
Qed.

Lemma dict_of_NoDup (bindings : list (string * V)) : NoDup (dict_of bindings).*1.
Proof.
  unfold dict_of.
  assert (Hgen : ∀ acc : list (string * V), NoDup acc.*1 →
            NoDup (foldl (λ d kv, dict_set kv.1 kv.2 d) acc bindings).*1).
  { induction bindings as [|[k v] bs IH]; intros acc Hacc; simpl; [done |].
    apply IH. by apply dict_set_NoDup. }
  apply Hgen. constructor.
Qed.

Lemma dict_get_None d k : k ∉ d.*1 → dict_get d k = None.
Proof.
  induction d as [|[k' v'] d IH]; simpl; intros Hk; [done |].
  rewrite elem_of_cons in Hk.
  destruct (decide (k = k')) as [->|Hne]; [by destruct Hk; left |].
  apply IH. intros Hin. apply Hk. by right.
Qed.

(** Reading back what was just assigned, and what was not touched. *)
Lemma dict_get_set_eq k v d : dict_get (dict_set k v d) k = Some v.
Proof.
  induction d as [|[k' v'] d IH]; simpl.
  - by destruct (decide (k = k)).
  - destruct (decide (k = k')) as [->|Hne]; simpl.
    + by destruct (decide (k' = k')).
    + by destruct (decide (k = k')).
Qed.

Lemma dict_get_set_ne k k' v d :
  k ≠ k' → dict_get (dict_set k' v d) k = dict_get d k.
Proof.
  intros Hne. induction d as [|[k'' v''] d IH]; simpl.
  - by destruct (decide (k = k')).
  - destruct (decide (k' = k'')) as [->|Hne']; simpl.
    + by destruct (decide (k = k'')).
    + destruct (decide (k = k'')); [done | apply IH].
Qed.

(** The dict of a file binds a key to the value of its last binding. *)
Lemma dict_of_last_binding (pre post : list (string * V)) k v :
  k ∉ post.*1 → dict_get (dict_of (pre ++ (k, v) :: post)) k = Some v.
Proof.
  intros Hpost. unfold dict_of. rewrite foldl_app. simpl.
  assert (Hgen : ∀ acc : list (string * V),
            dict_get (foldl (λ d kv, dict_set kv.1 kv.2 d) acc post) k =
            dict_get acc k).
  { induction post as [|[k' v'] post IH]; intros acc; simpl; [done |].
    simpl in Hpost. rewrite elem_of_cons in Hpost.
    rewrite IH; [| intros Hin; apply Hpost; by right].
    apply dict_get_set_ne. intros ->. apply Hpost. by left. }
  rewrite Hgen. apply dict_get_set_eq.
Qed.
End Dict.

(** With [override=False] the loop leaves every variable that is set
    alone and exports the file's value for every other key. *)
Lemma export_bindings_lookup d st key :
  NoDup d.*1 →
  ∃ env, export_bindings false d st =
         (inr (), {| os_environ := env; effects := effects st |}) ∧
         env !! key = match os_environ st !! key with
                      | Some u => Some u
                      | None => match dict_get d key with
                                | Some (Some v) => Some v
                                | _ => None
                                end
                      end.
Proof.
  revert st. induction d as [|[k ov] d IH]; intros [env0 es] Hd; simpl.
  - exists env0. split; [done |]. by destruct (env0 !! key).
  - apply NoDup_cons in Hd as [Hk Hd]. rewrite run_bind.
    unfold export_binding at 1. rewrite run_bind. simpl.
    destruct (env0 !! k) as [u|] eqn:Ek; simpl.
    + destruct (IH {| os_environ := env0; effects := es |} Hd) as (env & -> & Hl).
      exists env. split; [done |]. rewrite Hl. simpl.
      destruct (decide (key = k)) as [->|Hne]; [by rewrite Ek | done].
    + destruct ov as [v|]; simpl.
      * destruct (IH {| os_environ := <[k:=v]> env0; effects := es |} Hd)
          as (env & -> & Hl).
        exists env. split; [done |]. rewrite Hl. simpl.
        destruct (decide (key = k)) as [->|Hne].
        -- by rewrite lookup_insert_eq, Ek.
        -- by rewrite lookup_insert_ne.
      * destruct (IH {| os_environ := env0; effects := es |} Hd) as (env & -> & Hl).
        exists env. split; [done |]. rewrite Hl. simpl.
        destruct (decide (key = k)) as [->|Hne]; [|done].
        by rewrite Ek, (dict_get_None d k Hk).
Qed.

Lemma load_dotenv_lookup h st key :
  ∃ b env, load_dotenv h false st =
           (inr b, {| os_environ := env; effects := effects st |}) ∧
           env !! key =
           match os_environ st !! key with
           | Some u => Some u
           | None => match host_dotenv h with
                     | Some bindings =>
                         match dict_get (dict_of bindings) key with
                         | Some (Some v) => Some v
                         | _ => None
                         end
                     | None => None
                     end
           end.
Proof.
  unfold load_dotenv. destruct (host_dotenv h) as [bindings|].
  - pose proof (dict_of_NoDup bindings) as Hd.
    destruct (dict_of bindings) as [|kv d] eqn:E.
    + destruct st as [env0 es]. exists false, env0. split; [done |].
      simpl. by destruct (env0 !! key).
    + rewrite run_bind.
      destruct (export_bindings_lookup (kv :: d) st key Hd) as (env & -> & Hl).
      by exists true, env.
  - destruct st as [env0 es]. exists false, env0. split; [done |].
    simpl. by destruct (env0 !! key).
Qed.

(** Where the value of [my_api_key] comes from: the process environment
    when the variable is set there, and otherwise the last binding of the
    variable in the [.env] file. *)
Lemma my_api_key_from_environ h v :
  host_environ h !! KEY = Some v → my_api_key_of h = inr (Some v).
Proof.
  intros Henv. unfold my_api_key_of, read_key. rewrite run_bind.
  destruct (load_dotenv_lookup h (boot h) KEY) as (b & env & -> & Hl).
  simpl in *. by rewrite Hl, Henv.
Qed.

Lemma my_api_key_from_dotenv h v pre post :
  host_environ h !! KEY = None →
  host_dotenv h = Some (pre ++ (KEY, Some v) :: post) →
  KEY ∉ post.*1 →
  my_api_key_of h = inr (Some v).
Proof.
  intros Henv Hfile Hpost. unfold my_api_key_of, read_key. rewrite run_bind.
  destruct (load_dotenv_lookup h (boot h) KEY) as (b & env & -> & Hl).
  simpl in *.
  by rewrite Hl, Henv, Hfile, (dict_of_last_binding pre post KEY (Some v) Hpost).
Qed.

(** The response is whatever the call answers to the client built from
    [my_api_key]. *)
Lemma received_call h :
  ∃ k env, my_api_key_of h = inr k ∧
           received h =
           (messages_create h {| api_key := k |} the_request
              {| os_environ := env; effects := [] |}).1.
Proof.
  destruct (startup_run h) as (k & env & Hk & Hs).
  exists k, env. split; [done |].
  unfold received. by rewrite exchange_cut, run_bind, Hs.
Qed.

(** C10: the [.env] file is loaded before the credential is read. When
    the variable is set in the process environment, its value there is
    the credential, whatever the file binds it to; when it is unset there
    and the file binds it, the value of its last binding in the file is
    the credential. In both cases this is the value the script reads,
    builds its client with and makes its call with. *)
Theorem dotenv_supplies_missing_credential out h v :
  host_environ h !! KEY = Some v ∨
  (host_environ h !! KEY = None ∧
   ∃ pre post, host_dotenv h = Some (pre ++ (KEY, Some v) :: post) ∧
               KEY ∉ post.*1) →
  my_api_key_of h = inr (Some v) ∧
  client_of h = inr {| api_key := Some v |} ∧
  head (effects (python out h).2) =
    Some (ApiCall {| api_key := Some v |} the_request).
Proof.
  intros Hsrc.
  assert (Hkey : my_api_key_of h = inr (Some v)).
  { destruct Hsrc as [Henv|(Henv & pre & post & Hfile & Hpost)].
    - by apply my_api_key_from_environ.
    - by apply (my_api_key_from_dotenv h v pre post). }
  destruct (python_run out h) as (k & env & Hk & Hc & Hp).
  rewrite Hkey in Hk. injection Hk as <-.
  do 2 (split; [done |]).
  rewrite Hp. destruct (received h) as [e|r]; [done |].
  destruct (show_cases out r env {| api_key := Some v |})
    as [[_ ->]|[(b & _ & _ & ->)|[(t & _ & _ & ->)|(t & _ & _ & ->)]]]; done.
Qed.

Lemma dotenv_supplies_missing_credential_witness :
  my_api_key_of host_dotenv_only = inr (Some "sk-file") ∧
  client_of host_dotenv_only = inr {| api_key := Some "sk-file" |} ∧
  head (effects (python ascii_stream host_dotenv_only).2) =
    Some (ApiCall {| api_key := Some "sk-file" |} the_request).
Proof.
  apply (dotenv_supplies_missing_credential ascii_stream host_dotenv_only "sk-file").
  right. split; [vm_compute; reflexivity |].
  exists [(KEY, Some "sk-old"); ("DEBUG", None)], [].
  split; [reflexivity | apply not_elem_of_nil].
Defined.

Example environment_not_overridden :
  my_api_key_of host_both = inr (Some "sk-env").
Proof. apply my_api_key_from_environ. vm_compute. reflexivity. Qed.

Example first_dotenv_binding_is_not_used :
  my_api_key_of host_dotenv_only ≠ inr (Some "sk-old").
Proof. by vm_compute. Qed.

(** C4: when the credential variable is unset or empty at the time the
    script reads it, the client is still constructed, the call is made and
    it is the call that raises the authentication failure; the run ends
    with that exception, the exit status is not zero and standard output
    is empty. *)
Theorem missing_credential_fails_at_call out h :
  my_api_key_of h = inr None ∨ my_api_key_of h = inr (Some "") →
  (∃ c, client_of h = inr c ∧
        effects (python out h).2 = [ApiCall c the_request]) ∧
  received h = inl AuthenticationError ∧
  (python out h).1 = inl AuthenticationError ∧
  exit_status (python out h).1 ≠ 0 ∧
  stdout (python out h).2 = "".
Proof.
  intros Hmissing.
  assert (Hr : received h = inl AuthenticationError).
  { destruct (received_call h) as (k & env & Hk & ->).
    rewrite Hk in Hmissing.
    by destruct Hmissing as [[= ->]|[= ->]]. }
  destruct (python_run out h) as (k & env & _ & Hc & Hp).
  rewrite Hr in Hp. rewrite Hp. simpl.
  split; [by eexists |]. done.
Qed.

Lemma missing_credential_fails_at_call_witness :
  received host_unset = inl AuthenticationError ∧
  (python ascii_stream host_unset).1 = inl AuthenticationError ∧
  exit_status (python ascii_stream host_unset).1 ≠ 0 ∧
  stdout (python ascii_stream host_unset).2 = "".
Proof.
  apply (missing_credential_fails_at_call ascii_stream host_unset).
  left. vm_compute. reflexivity.
Defined.

Example empty_credential_fails_at_call :
  (python ascii_stream (host_with "" [TextBlock "ask"])).1 = inl AuthenticationError.
Proof. vm_compute. reflexivity. Qed.

(** C9, as the code has it: two runs that receive the same response
    write the same standard output, whatever their credentials; and a
    credential appears in the output only if it already occurs in what the
    response makes the script print, the first text segment followed by
    the line terminator. *)
Theorem output_depends_on_response_only out h1 h2 k :
  received h1 = received h2 →
  my_api_key_of h1 = inr (Some k) →
  k ≠ "" →
  stdout (python out h1).2 = stdout (python out h2).2 ∧
  (occurs_in k (stdout (python out h1).2) →
   ∃ r t, received h1 = inr r ∧
          content r !! 0%nat = Some (TextBlock t) ∧
          occurs_in k (t +:+ newline)).
Proof.
  intros Hsame _ Hk.
  destruct (python_run out h1) as (k1 & env1 & _ & _ & Hp1).
  destruct (python_run out h2) as (k2 & env2 & _ & _ & Hp2).
  rewrite <- Hsame in Hp2. rewrite Hp1, Hp2.
  destruct (received h1) as [e|r]; simpl.
  - split; [done |]. intros Ho. by apply occurs_in_empty in Ho.
  - destruct (show_observed out r env1 {| api_key := k1 |} env2 {| api_key := k2 |})
      as [_ ->].
    split; [done |].
    destruct (show_cases out r env2 {| api_key := k2 |})
      as [[_ ->]|[(b & _ & _ & ->)|[(t & _ & _ & ->)|(t & Ht & _ & ->)]]];
      intros Ho.
    + by apply occurs_in_empty in Ho.
    + by apply occurs_in_empty in Ho.
    + by apply occurs_in_empty in Ho.
    + exists r, t. do 2 (split; [done |]).
      cbn [snd] in Ho. by rewrite stdout_after_print in Ho.
Qed.

Lemma output_depends_on_response_only_witness :
  stdout (python ascii_stream (host_with "sk" [TextBlock "ask"])).2 =
  stdout (python ascii_stream (host_with "pk" [TextBlock "ask"])).2.
Proof.
  apply (output_depends_on_response_only ascii_stream
           (host_with "sk" [TextBlock "ask"]) (host_with "pk" [TextBlock "ask"]) "sk").
  - vm_compute. reflexivity.
  - vm_compute. reflexivity.
  - discriminate.
Defined.

(** C9 as stated fails: the credential is [sk], the service answers with
    the text [ask], and the credential string appears in the output. *)
Lemma credential_string_in_output :
  my_api_key_of (host_with "sk" [TextBlock "ask"]) = inr (Some "sk") ∧
  occurs_in "sk" (stdout (python ascii_stream (host_with "sk" [TextBlock "ask"])).2).
Proof.
  split; [vm_compute; reflexivity |].
  exists "a", newline. vm_compute. reflexivity.
Qed.

(** ** How a run ends, read backwards *)

Lemma line_not_empty (t : string) : t +:+ newline ≠ "".
Proof. intros H. by apply append_empty in H. Qed.

(** X1: the run ends with an exception exactly when one of three things
    happened, and with that exception: lines 8-26 raised it; or the
    response came with an empty content list and line 30 raised
    [IndexError]; or the first segment is a text that standard output
    cannot encode and line 32 raised [UnicodeEncodeError]. *)
Theorem run_fails_iff_stage_fails out h e :
  (python out h).1 = inl e ↔
  stage_failure h e ∨
  ∃ r t, received h = inr r ∧
         content r !! 0%nat = Some (TextBlock t) ∧
         can_encode out t = false ∧
         e = UnicodeEncodeError.
Proof.
  destruct (python_run out h) as (k & env & _ & _ & Hp). split.
  - intros Hout. rewrite Hp in Hout.
    destruct (received h) as [e'|r] eqn:Hr.
    + simpl in Hout. injection Hout as <-. left. by apply fails_before_response.
    + destruct (show_cases out r env {| api_key := k |})
        as [[He Hs]|[(b & _ & _ & Hs)|[(t & Ht & Henc & Hs)|(t & _ & _ & Hs)]]];
        rewrite Hs in Hout; simpl in Hout; try discriminate.
      * injection Hout as <-. left. by apply (fails_in_extraction h r).
      * injection Hout as <-. right. by exists r, t.
  - intros [[e' Hr|r Hr He]|(r & t & Hr & Ht & Henc & ->)]; rewrite Hr in Hp.
    + by rewrite Hp.
    + by rewrite Hp, (show_empty out r _ He).
    + by rewrite Hp, (show_unencodable out r t _ Ht Henc).
Qed.

(** X2: the exit status is 0 exactly when a response arrived whose
    content list has a first segment that is either not a text segment or
    a text that standard output can encode. *)
Theorem exit_zero_iff_first_segment_shown out h :
  exit_status (python out h).1 = 0 ↔
  ∃ r b, received h = inr r ∧
         content r !! 0%nat = Some b ∧
         ∀ t, b = TextBlock t → can_encode out t = true.
Proof.
  destruct (python_run out h) as (k & env & _ & _ & Hp). rewrite Hp. split.
  - destruct (received h) as [e|r]; [done |]. intros Hx.
    destruct (show_cases out r env {| api_key := k |})
      as [[_ Hs]|[(b & Hb & Hn & _)|[(t & _ & _ & Hs)|(t & Ht & Henc & _)]]].
    + by rewrite Hs in Hx.
    + exists r, b. do 2 (split; [done |]). intros t ->. discriminate.
    + by rewrite Hs in Hx.
    + exists r, (TextBlock t). do 2 (split; [done |]). by intros t' [= <-].
  - intros (r & b & -> & Hb & Henc).
    destruct b as [t| |].
    + by rewrite (show_text out r t _ Hb (Henc t eq_refl)).
    + by rewrite (show_other out r _ _ Hb).
    + by rewrite (show_other out r _ _ Hb).
Qed.

(** X3: something is written to standard output exactly when a response
    arrived whose first segment is a text segment that standard output
    can encode; this includes the empty text, for which the line
    terminator is written. *)
Theorem output_iff_first_segment_printable out h :
  stdout (python out h).2 ≠ "" ↔
  ∃ r t, received h = inr r ∧
         content r !! 0%nat = Some (TextBlock t) ∧
         can_encode out t = true.
Proof.
  destruct (python_run out h) as (k & env & _ & _ & Hp). rewrite Hp. split.
  - destruct (received h) as [e|r]; [done |]. intros Hout.
    destruct (show_cases out r env {| api_key := k |})
      as [[_ Hs]|[(b & _ & _ & Hs)|[(t & _ & _ & Hs)|(t & Ht & Henc & _)]]];
      [by rewrite Hs in Hout | by rewrite Hs in Hout | by rewrite Hs in Hout |].
    by exists r, t.
  - intros (r & t & -> & Ht & Henc).
    rewrite (show_text out r t _ Ht Henc).
    cbn [snd after_call os_environ effects app].
    rewrite stdout_after_print. apply line_not_empty.
Qed.

Example empty_text_prints_newline :
  stdout (python ascii_stream (host_with "sk" [TextBlock ""])).2 = newline.
Proof. vm_compute. reflexivity. Qed.

(** X4: when the first segment is a text that standard output cannot
    encode, line 32 raises [UnicodeEncodeError] after the call has been
    made: the run ends with that exception and a non-zero exit status,
    and nothing at all has been written, not even part of the text. *)
Theorem unencodable_text_prints_nothing out h r t :
  received h = inr r →
  content r !! 0%nat = Some (TextBlock t) →
  can_encode out t = false →
  (python out h).1 = inl UnicodeEncodeError ∧
  exit_status (python out h).1 ≠ 0 ∧
  stdout (python out h).2 = "" ∧
  ∃ c, effects (python out h).2 = [ApiCall c the_request].
Proof.
  intros Hr Ht Henc.
  destruct (python_run out h) as (k & env & _ & _ & Hp).
  rewrite Hr, (show_unencodable out r t _ Ht Henc) in Hp. rewrite Hp. simpl.
  do 3 (split; [done |]). by eexists.
Qed.

Lemma unencodable_text_prints_nothing_witness :
  (python ascii_stream (host_with "sk" [TextBlock accented])).1 =
    inl UnicodeEncodeError ∧
  exit_status (python ascii_stream (host_with "sk" [TextBlock accented])).1 ≠ 0 ∧
  stdout (python ascii_stream (host_with "sk" [TextBlock accented])).2 = "" ∧
  ∃ c, effects (python ascii_stream (host_with "sk" [TextBlock accented])).2 =
       [ApiCall c the_request].
Proof.
  apply (unencodable_text_prints_nothing ascii_stream
           (host_with "sk" [TextBlock accented])
           {| content := [TextBlock accented] |} accented);
    vm_compute; reflexivity.
Defined.

(** X5: the request does not depend on the host. Whatever the
    environment, the [.env] file and the service are, any two runs send
    the same request, with the fixed model name and the positive token
    bound of lines 18-19. *)
Theorem request_is_host_independent out h1 h2 c1 c2 req1 req2 :
  ApiCall c1 req1 ∈ effects (python out h1).2 →
  ApiCall c2 req2 ∈ effects (python out h2).2 →
  req1 = req2 ∧
  model req1 = "claude-haiku-4-5-20251001" ∧
  max_tokens req1 = 8000 ∧
  0 < max_tokens req1.
Proof.
  intros Hin1 Hin2.
  apply sent_request in Hin1 as ->. apply sent_request in Hin2 as ->.
  done.
Qed.

Lemma request_is_host_independent_witness :
  the_request = the_request ∧
  model the_request = "claude-haiku-4-5-20251001" ∧
  max_tokens the_request = 8000 ∧
  0 < max_tokens the_request.
Proof.
  apply (request_is_host_independent ascii_stream
           host_unset host_throttled
           {| api_key := None |} {| api_key := Some "sk-live" |}
           the_request the_request);
    vm_compute; apply list_elem_of_here.
Defined.
